(** * ts-maybe: the [Maybe] algebra of [src/maybe.ts]

    A shallow embedding of the TypeScript module [src/maybe.ts] and the
    properties its specification states about it.

    - [Js] models the part of the JavaScript value space and of its
      coercions that [ofVal], [ofNullable] and [ofUndefinable] look at.
    - [Exec] is the monad in which user callbacks run: a callback may change
      the outside world and may throw.
    - The exported functions follow, one definition per function of the
      source, in the order of the source.
    - The theorems come last. *)

From Stdlib Require Import Bool List String ZArith Lia SpecFloat.
Import ListNotations.
Open Scope string_scope.
Open Scope list_scope.

Set Implicit Arguments.

(* ------------------------------------------------------------------ *)
(** ** JavaScript values *)

Module Js.

(** The language types of ECMAScript.  A number is an IEEE 754 double, kept
    as the Standard Library's [spec_float]; an object is known by its
    address only, since the library never looks inside a payload.  An
    [Error] instance is kept apart from the other objects, with the message
    it was built from, because [get] builds one.  Objects with the
    [[IsHTMLDDA]] slot of Annex B (a browser's [document.all]) are left out:
    they are the one kind of object that is falsy and loosely equal to
    [null]. *)
Inductive value : Type :=
| Undefined
| Null
| Boolean (b : bool)
| Number (x : spec_float)
| BigInt (z : Z)
| String (s : string)
| Symbol (id : nat)
| Object (addr : nat)
| Error (message : string).

(** [ToBoolean], the coercion behind [!!value]: [undefined], [null],
    [false], [+0], [-0], [NaN], [0n] and the empty string are falsy, every
    other value is truthy. *)
Definition ToBoolean (v : value) : bool :=
  match v with
  | Undefined | Null => false
  | Boolean b => b
  | Number (S754_zero _) | Number S754_nan => false
  | Number _ => true
  | BigInt z => negb (Z.eqb z 0)
  | String s => negb (String.eqb s "")
  | Symbol _ | Object _ | Error _ => true
  end.

(** The two sentinels the source compares with. *)
Inductive sentinel : Type := null | undefined.

(** [v == null] and [v == undefined], IsLooselyEqual with a sentinel on the
    right: operands of one type compare strictly, so each sentinel equals
    itself; [null] and [undefined] equal each other; the coercion steps that
    follow are for numbers, strings, big integers, booleans and objects
    against one another, none takes a sentinel, and the answer is [false]. *)
Definition looseEq (v : value) (s : sentinel) : bool :=
  match v, s with
  | Null, null => true
  | Undefined, undefined => true
  | Null, undefined => true
  | Undefined, null => true
  | _, _ => false
  end.

Definition looseNe (v : value) (s : sentinel) : bool := negb (looseEq v s).

(** A parameter with a default value: the caller leaves it out or passes
    it. *)
Inductive param (A : Type) : Type :=
| Omitted
| Passed (a : A).
Arguments Omitted {A}.

Definition orDefault {A : Type} (d : A) (p : param A) : A :=
  match p with
  | Omitted => d
  | Passed a => a
  end.

End Js.

(* ------------------------------------------------------------------ *)
(** ** Running callbacks *)

(** How a call ends: it returns a value or it throws one. *)
Inductive Completion (A : Type) : Type :=
| Normal (result : A)
| Throw (thrown : Js.value).
Arguments Throw {A} thrown.

Module Exec.

(** A computation over a world [W]: it ends in a completion and leaves a
    world behind. *)
Definition t (W A : Type) : Type := W -> Completion A * W.

Definition ret {W A : Type} (a : A) : t W A := fun w => (Normal a, w).

Definition bind {W A B : Type} (c : t W A) (k : A -> t W B) : t W B :=
  fun w =>
    match c w with
    | (Normal a, w') => k a w'
    | (Throw e, w') => (Throw e, w')
    end.

(** The completion and the world after running [c] from [w]. *)
Definition completion {W A : Type} (c : t W A) (w : W) : Completion A := fst (c w).
Definition world {W A : Type} (c : t W A) (w : W) : W := snd (c w).

(** [c] returns from [w]. *)
Definition returns {W A : Type} (c : t W A) (w : W) : bool :=
  match completion c w with
  | Normal _ => true
  | Throw _ => false
  end.

End Exec.

Declare Scope exec_scope.
Delimit Scope exec_scope with exec.
Notation "x <- c ;; k" := (Exec.bind c (fun x => k))
  (at level 61, c at next level, right associativity) : exec_scope.
Open Scope exec_scope.

(** A callback of one, two and three parameters. *)
Definition Fn1 (W IN OUT : Type) : Type := IN -> Exec.t W OUT.
Definition Fn2 (W IN1 IN2 OUT : Type) : Type := IN1 -> IN2 -> Exec.t W OUT.
Definition Fn3 (W IN1 IN2 IN3 OUT : Type) : Type := IN1 -> IN2 -> IN3 -> Exec.t W OUT.

(** A callback that computes its result and does nothing else. *)
Definition pure1 {W IN OUT : Type} (f : IN -> OUT) : Fn1 W IN OUT :=
  fun v => Exec.ret (f v).
Definition pure2 {W IN1 IN2 OUT : Type} (f : IN1 -> IN2 -> OUT) : Fn2 W IN1 IN2 OUT :=
  fun v1 v2 => Exec.ret (f v1 v2).
Definition pure3 {W IN1 IN2 IN3 OUT : Type} (f : IN1 -> IN2 -> IN3 -> OUT)
  : Fn3 W IN1 IN2 IN3 OUT :=
  fun v1 v2 v3 => Exec.ret (f v1 v2 v3).

(** [Array.prototype.reduce(callback, initialValue)] over a dense array: the
    accumulator goes through the elements from left to right. *)
Fixpoint reduce {W A B : Type} (callback : B -> A -> Exec.t W B)
  (array : list A) (initialValue : B) : Exec.t W B :=
  match array with
  | [] => Exec.ret initialValue
  | curr :: rest => acc <- callback initialValue curr ;; reduce callback rest acc
  end.

(* ------------------------------------------------------------------ *)
(** ** The probe of the test suite *)

(** [jasmine.createSpy]: the world gets a log in front, and a call writes its
    arguments at the end of the log before the body runs. *)
Definition called {W Args A : Type} (args : Args) (body : Exec.t W A)
  : Exec.t (list Args * W) A :=
  fun lw =>
    let (r, w') := body (snd lw) in (r, (fst lw ++ [args], w')).

Definition spy1 {W IN OUT : Type} (f : Fn1 W IN OUT) : Fn1 (list IN * W) IN OUT :=
  fun v => called v (f v).
Definition spy2 {W IN1 IN2 OUT : Type} (f : Fn2 W IN1 IN2 OUT)
  : Fn2 (list (IN1 * IN2) * W) IN1 IN2 OUT :=
  fun v1 v2 => called (v1, v2) (f v1 v2).
Definition spy3 {W IN1 IN2 IN3 OUT : Type} (f : Fn3 W IN1 IN2 IN3 OUT)
  : Fn3 (list (IN1 * IN2 * IN3) * W) IN1 IN2 IN3 OUT :=
  fun v1 v2 v3 => called (v1, v2, v3) (f v1 v2 v3).

(* ------------------------------------------------------------------ *)
(** ** The library *)

(** [type Maybe<T> = { kind: 'None' } | { kind: 'Some', value: T }] *)
Inductive Maybe (T : Type) : Type :=
| None
| Some (value : T).
Arguments None {T}.

Definition kind {T : Type} (maybe : Maybe T) : string :=
  match maybe with
  | None => "None"
  | Some _ => "Some"
  end.

(** The object literals [{ value1, value2 }] and [{ value1, value2, value3 }]
    that [map2], [bind2] and [map3] build. *)
Module Two.
Record values (IN1 IN2 : Type) : Type :=
  { value1 : IN1; value2 : IN2 }.
End Two.

Module Three.
Record values (IN1 IN2 IN3 : Type) : Type :=
  { value1 : IN1; value2 : IN2; value3 : IN3 }.
End Three.

Definition ofVal (val : Js.value) (useTruthyCheck : Js.param bool) : Maybe Js.value :=
  let check : Js.value -> bool :=
    if Js.orDefault false useTruthyCheck
    then fun value => negb (negb (Js.ToBoolean value))
    else fun value => Js.looseNe value Js.null && Js.looseNe value Js.undefined in
  if check val then Some val else None.

Definition ofNullable (val : Js.value) : Maybe Js.value :=
  if Js.looseEq val Js.null then None else ofVal val Js.Omitted.

Definition ofUndefinable (val : Js.value) : Maybe Js.value :=
  if Js.looseEq val Js.undefined then None else ofVal val Js.Omitted.

Definition toNullable (maybe : Maybe Js.value) : Js.value :=
  match maybe with
  | None => Js.Null
  | Some value => value
  end.

Definition isSome {T : Type} (maybe : Maybe T) : bool := String.eqb (kind maybe) "Some".

Definition isNone {T : Type} (maybe : Maybe T) : bool := String.eqb (kind maybe) "None".

Definition get {T : Type} (maybe : Maybe T) : Completion T :=
  match maybe with
  | None => Throw (Js.Error "Expected 'Some' but was given 'None'")
  | Some value => Normal value
  end.

Definition map {W IN OUT : Type} (mapper : Fn1 W IN OUT) (maybe : Maybe IN)
  : Exec.t W (Maybe OUT) :=
  match maybe with
  | None => Exec.ret None
  | Some value => out <- mapper value ;; Exec.ret (Some out)
  end.

Definition bind {W IN OUT : Type} (binder : Fn1 W IN (Maybe OUT)) (maybe : Maybe IN)
  : Exec.t W (Maybe OUT) :=
  match maybe with
  | None => Exec.ret None
  | Some value => binder value
  end.

Definition map2 {W IN1 IN2 OUT : Type} (mapper : Fn2 W IN1 IN2 OUT)
  (maybe1 : Maybe IN1) (maybe2 : Maybe IN2) : Exec.t W (Maybe OUT) :=
  paired <- bind
    (fun value1 =>
       map (fun value2 => Exec.ret {| Two.value1 := value1; Two.value2 := value2 |}) maybe2)
    maybe1 ;;
  map (fun values => mapper (Two.value1 values) (Two.value2 values)) paired.

Definition bind2 {W IN1 IN2 OUT : Type} (binder : Fn2 W IN1 IN2 (Maybe OUT))
  (maybe1 : Maybe IN1) (maybe2 : Maybe IN2) : Exec.t W (Maybe OUT) :=
  paired <- bind
    (fun value1 =>
       map (fun value2 => Exec.ret {| Two.value1 := value1; Two.value2 := value2 |}) maybe2)
    maybe1 ;;
  bind (fun values => binder (Two.value1 values) (Two.value2 values)) paired.

Definition map3 {W IN1 IN2 IN3 OUT : Type} (mapper : Fn3 W IN1 IN2 IN3 OUT)
  (maybe1 : Maybe IN1) (maybe2 : Maybe IN2) (maybe3 : Maybe IN3)
  : Exec.t W (Maybe OUT) :=
  tripled <- bind2
    (fun value1 value2 =>
       map (fun value3 =>
              Exec.ret {| Three.value1 := value1; Three.value2 := value2;
                          Three.value3 := value3 |}) maybe3)
    maybe1 maybe2 ;;
  map (fun values =>
         mapper (Three.value1 values) (Three.value2 values) (Three.value3 values))
      tripled.

Definition combine {W T : Type} (maybes : list (Maybe T)) : Exec.t W (Maybe (list T)) :=
  reduce
    (fun acc curr =>
       bind (fun value => map (fun value2 => Exec.ret (value ++ [value2])) curr) acc)
    maybes (Some []).

Definition iter {W T R : Type} (action : Fn1 W T R) (maybe : Maybe T) : Exec.t W unit :=
  match maybe with
  | Some value => _ <- action value ;; Exec.ret tt
  | None => Exec.ret tt
  end.

Definition withDefault {T : Type} (def : T) (maybe : Maybe T) : T :=
  match maybe with
  | Some value => value
  | None => def
  end.

(* ------------------------------------------------------------------ *)
(** ** Callbacks inside their documented domain *)

(** The documentation asks of a callback that it yields its value: from no
    argument and no world does it throw. *)
Definition total1 {W IN OUT : Type} (f : Fn1 W IN OUT) : Prop :=
  forall v w, Exec.returns (f v) w = true.
Definition total2 {W IN1 IN2 OUT : Type} (f : Fn2 W IN1 IN2 OUT) : Prop :=
  forall v1 v2 w, Exec.returns (f v1 v2) w = true.
Definition total3 {W IN1 IN2 IN3 OUT : Type} (f : Fn3 W IN1 IN2 IN3 OUT) : Prop :=
  forall v1 v2 v3 w, Exec.returns (f v1 v2 v3) w = true.

(** What [map2] and [bind2] hand to their last step: the two payloads in one
    record when both are there, nothing otherwise, the world untouched. *)
Definition paired {IN1 IN2 : Type} (maybe1 : Maybe IN1) (maybe2 : Maybe IN2)
  : Maybe (Two.values IN1 IN2) :=
  match maybe1, maybe2 with
  | Some value1, Some value2 => Some {| Two.value1 := value1; Two.value2 := value2 |}
  | _, _ => None
  end.

(** The number literal [0]. *)
Definition zero : Js.value := Js.Number (S754_zero false).

(* ------------------------------------------------------------------ *)
(** ** Lifting raw values *)

Section Lifting.

Variable v : Js.value.

Lemma looseEq_sentinels (s1 s2 : Js.sentinel) : Js.looseEq v s1 = Js.looseEq v s2.
Proof. destruct v, s1, s2; reflexivity. Qed.

Lemma looseEq_true_iff (s : Js.sentinel) :
  Js.looseEq v s = true <-> v = Js.Null \/ v = Js.Undefined.
Proof.
  split.
  - destruct v, s; simpl; intros H; try discriminate H; auto.
  - intros [-> | ->]; destruct s; reflexivity.
Qed.

Lemma ofVal_default_eq :
  ofVal v Js.Omitted = if Js.looseEq v Js.null then None else Some v.
Proof. destruct v; reflexivity. Qed.

Lemma ofVal_strict_eq :
  ofVal v (Js.Passed false) = ofVal v Js.Omitted.
Proof. reflexivity. Qed.

Lemma ofVal_truthy_eq :
  ofVal v (Js.Passed true) = if Js.ToBoolean v then Some v else None.
Proof.
  unfold ofVal; simpl. rewrite negb_involutive. reflexivity.
Qed.

Lemma ofNullable_eq :
  ofNullable v = if Js.looseEq v Js.null then None else Some v.
Proof. destruct v; reflexivity. Qed.

End Lifting.

(** C6. Without the truthy check (left out or passed as [false]) [ofVal v] is
    [None] exactly when [v] is [null] or [undefined], and [Some v] for every
    other [v]; with the truthy check it is [None] exactly when [v] is falsy
    under [ToBoolean], and [Some v] for every other [v].  So [ofVal(0)] is
    [Some(0)] and [ofVal(0, true)] is [None]. *)
Theorem ofVal_spec :
  (forall v u, u = Js.Omitted \/ u = Js.Passed false ->
     (ofVal v u = None <-> v = Js.Null \/ v = Js.Undefined) /\
     (ofVal v u = None \/ ofVal v u = Some v)) /\
  (forall v,
     (ofVal v (Js.Passed true) = None <-> Js.ToBoolean v = false) /\
     (ofVal v (Js.Passed true) = None \/ ofVal v (Js.Passed true) = Some v)) /\
  ofVal zero Js.Omitted = Some zero /\
  ofVal zero (Js.Passed true) = None.
Proof.
  repeat split.
  - destruct H as [-> | ->]; [| rewrite ofVal_strict_eq];
      rewrite ofVal_default_eq;
      destruct (Js.looseEq v Js.null) eqn:E; intros H; try discriminate H;
      apply (looseEq_true_iff v Js.null); exact E.
  - destruct H as [-> | ->]; [| rewrite ofVal_strict_eq];
      rewrite ofVal_default_eq; intros H0;
      apply (looseEq_true_iff v Js.null) in H0; rewrite H0; reflexivity.
  - destruct H as [-> | ->]; [| rewrite ofVal_strict_eq];
      rewrite ofVal_default_eq; destruct (Js.looseEq v Js.null); auto.
  - rewrite ofVal_truthy_eq. destruct (Js.ToBoolean v); [discriminate | reflexivity].
  - rewrite ofVal_truthy_eq. intros ->. reflexivity.
  - rewrite ofVal_truthy_eq. destruct (Js.ToBoolean v); auto.
Qed.

Lemma ofVal_spec_witness :
  ofVal (Js.String "") Js.Omitted = None \/
  ofVal (Js.String "") Js.Omitted = Some (Js.String "").
Proof.
  apply (proj1 ofVal_spec (Js.String "") Js.Omitted).
  left; reflexivity.
Defined.

(** C7. [ofNullable v] is [ofVal v] without the truthy check, for every [v],
    [null] and [undefined] included: it is [None] exactly when [v] is [null]
    or [undefined], and [Some v] otherwise. *)
Theorem ofNullable_is_ofVal (v : Js.value) :
  ofNullable v = ofVal v Js.Omitted /\
  ofNullable v = ofVal v (Js.Passed false) /\
  (ofNullable v = None <-> v = Js.Null \/ v = Js.Undefined) /\
  (ofNullable v = None \/ ofNullable v = Some v).
Proof.
  rewrite ofVal_strict_eq, ofNullable_eq, ofVal_default_eq.
  repeat split.
  - destruct (Js.looseEq v Js.null) eqn:E; intros H; try discriminate H.
    apply (looseEq_true_iff v Js.null); exact E.
  - intros H. apply (looseEq_true_iff v Js.null) in H. rewrite H. reflexivity.
  - destruct (Js.looseEq v Js.null); auto.
Qed.

(** C9. [ofNullable] and [ofUndefinable] are the same function: [v == null]
    and [v == undefined] hold for the same values, [null] and [undefined],
    so both functions answer [None] on those two and [Some v] elsewhere. *)
Theorem ofNullable_ofUndefinable (v : Js.value) :
  ofNullable v = ofUndefinable v /\
  Js.looseEq v Js.null = Js.looseEq v Js.undefined /\
  ofNullable Js.Null = None /\ ofUndefinable Js.Null = None /\
  ofNullable Js.Undefined = None /\ ofUndefinable Js.Undefined = None.
Proof.
  repeat split; destruct v; reflexivity.
Qed.

(** C10. [ofNullable (toNullable m)] gives [m] back when [m] is [None] or a
    [Some v] whose [v] is neither [null] nor [undefined]; it gives [None],
    not [m], when [m] is [Some null] or [Some undefined]. *)
Theorem ofNullable_toNullable :
  (forall m : Maybe Js.value,
     m = None \/ (exists v, m = Some v /\ v <> Js.Null /\ v <> Js.Undefined) ->
     ofNullable (toNullable m) = m) /\
  (forall m : Maybe Js.value,
     m = Some Js.Null \/ m = Some Js.Undefined ->
     ofNullable (toNullable m) = None /\ ofNullable (toNullable m) <> m).
Proof.
  split.
  - intros m [-> | (v & -> & Hn & Hu)]; [reflexivity |].
    simpl. rewrite ofNullable_eq.
    destruct (Js.looseEq v Js.null) eqn:E; [| reflexivity].
    apply (looseEq_true_iff v Js.null) in E. destruct E; contradiction.
  - intros m [-> | ->]; split; try reflexivity; discriminate.
Qed.

Lemma ofNullable_toNullable_witness :
  ofNullable (toNullable (Some zero)) = Some zero /\
  ofNullable (toNullable (Some Js.Null)) = None.
Proof.
  split.
  - apply (proj1 ofNullable_toNullable (Some zero)).
    right; exists zero; repeat split; discriminate.
  - apply (proj2 ofNullable_toNullable (Some Js.Null)).
    left; reflexivity.
Defined.

(* ------------------------------------------------------------------ *)
(** ** Extraction *)

Lemma get_throws_inv {T : Type} (m : Maybe T) (e : Js.value) :
  get m = Throw e -> m = None.
Proof. destruct m; [reflexivity | discriminate]. Qed.

(* ------------------------------------------------------------------ *)
(** ** The map and bind families *)

Section Families.

Variable W : Type.

Lemma returns_ret {A : Type} (a : A) (w : W) : Exec.returns (Exec.ret a) w = true.
Proof. reflexivity. Qed.

Lemma returns_bind {A B : Type} (c : Exec.t W A) (k : A -> Exec.t W B) (w : W) :
  Exec.returns c w = true ->
  (forall a w', Exec.returns (k a) w' = true) ->
  Exec.returns (a <- c ;; k a) w = true.
Proof.
  unfold Exec.returns, Exec.completion, Exec.bind.
  intros Hc Hk. destruct (c w) as [[a | e] w']; simpl in *.
  - apply Hk.
  - discriminate Hc.
Qed.

Lemma pairing {IN1 IN2 : Type} (maybe1 : Maybe IN1) (maybe2 : Maybe IN2) (w : W) :
  bind (fun value1 =>
          map (fun value2 =>
                 Exec.ret {| Two.value1 := value1; Two.value2 := value2 |}) maybe2)
       maybe1 w
  = (Normal (paired maybe1 maybe2), w).
Proof. destruct maybe1, maybe2; reflexivity. Qed.

Lemma map2_eq {IN1 IN2 OUT : Type} (mapper : Fn2 W IN1 IN2 OUT) maybe1 maybe2 w :
  map2 mapper maybe1 maybe2 w
  = map (fun values => mapper (Two.value1 values) (Two.value2 values))
        (paired maybe1 maybe2) w.
Proof. unfold map2, Exec.bind. rewrite pairing. reflexivity. Qed.

Lemma bind2_eq {IN1 IN2 OUT : Type} (binder : Fn2 W IN1 IN2 (Maybe OUT)) maybe1 maybe2 w :
  bind2 binder maybe1 maybe2 w
  = bind (fun values => binder (Two.value1 values) (Two.value2 values))
         (paired maybe1 maybe2) w.
Proof. unfold bind2, Exec.bind. rewrite pairing. reflexivity. Qed.

Lemma map3_eq {IN1 IN2 IN3 OUT : Type} (mapper : Fn3 W IN1 IN2 IN3 OUT)
  maybe1 maybe2 maybe3 w :
  map3 mapper maybe1 maybe2 maybe3 w
  = match maybe1, maybe2, maybe3 with
    | Some value1, Some value2, Some value3 =>
        (out <- mapper value1 value2 value3 ;; Exec.ret (Some out)) w
    | _, _, _ => (Normal None, w)
    end.
Proof.
  unfold map3, Exec.bind at 1. rewrite bind2_eq.
  destruct maybe1, maybe2, maybe3; reflexivity.
Qed.

Lemma map_returns {IN OUT : Type} (mapper : Fn1 W IN OUT) maybe w :
  total1 mapper -> Exec.returns (map mapper maybe) w = true.
Proof.
  intros H. destruct maybe as [| value]; simpl; [reflexivity |].
  apply returns_bind; [apply H | intros; reflexivity].
Qed.

Lemma bind_returns {IN OUT : Type} (binder : Fn1 W IN (Maybe OUT)) maybe w :
  total1 binder -> Exec.returns (bind binder maybe) w = true.
Proof.
  intros H. destruct maybe as [| value]; simpl; [reflexivity | apply H].
Qed.

Lemma map2_returns {IN1 IN2 OUT : Type} (mapper : Fn2 W IN1 IN2 OUT) maybe1 maybe2 w :
  total2 mapper -> Exec.returns (map2 mapper maybe1 maybe2) w = true.
Proof.
  intros H. unfold Exec.returns, Exec.completion. rewrite map2_eq.
  apply map_returns. intros values w'. apply H.
Qed.

Lemma bind2_returns {IN1 IN2 OUT : Type} (binder : Fn2 W IN1 IN2 (Maybe OUT))
  maybe1 maybe2 w :
  total2 binder -> Exec.returns (bind2 binder maybe1 maybe2) w = true.
Proof.
  intros H. unfold Exec.returns, Exec.completion. rewrite bind2_eq.
  apply bind_returns. intros values w'. apply H.
Qed.

Lemma map3_returns {IN1 IN2 IN3 OUT : Type} (mapper : Fn3 W IN1 IN2 IN3 OUT)
  maybe1 maybe2 maybe3 w :
  total3 mapper -> Exec.returns (map3 mapper maybe1 maybe2 maybe3) w = true.
Proof.
  intros H. unfold Exec.returns, Exec.completion. rewrite map3_eq.
  destruct maybe1, maybe2, maybe3; try reflexivity.
  apply returns_bind; [apply H | intros; reflexivity].
Qed.

Lemma iter_returns {T R : Type} (action : Fn1 W T R) maybe w :
  total1 action -> Exec.returns (iter action maybe) w = true.
Proof.
  intros H. destruct maybe as [| value]; simpl; [reflexivity |].
  apply returns_bind; [apply H | intros; reflexivity].
Qed.

End Families.

(* ------------------------------------------------------------------ *)
(** ** [combine] *)

Section Combine.

Variables W T : Type.

(** The reducer of [combine]. *)
#[local] Abbreviation reducer :=
  (fun (acc : Maybe (list T)) (curr : Maybe T) =>
     bind (fun value => map (fun value2 => @Exec.ret W _ (value ++ [value2])) curr) acc).

Lemma reduce_lost (maybes : list (Maybe T)) (w : W) :
  reduce reducer maybes None w = (Normal None, w).
Proof.
  induction maybes as [| curr rest IH]; [reflexivity |].
  simpl. unfold Exec.bind; simpl. exact IH.
Qed.

Lemma reduce_all_Some (values acc : list T) (w : W) :
  reduce reducer (List.map (@Some T) values) (Some acc) w
  = (Normal (Some (acc ++ values)), w).
Proof.
  revert acc. induction values as [| x rest IH]; intros acc; simpl.
  - rewrite app_nil_r. reflexivity.
  - unfold Exec.bind; simpl. rewrite IH, <- app_assoc. reflexivity.
Qed.

Lemma reduce_some_None (maybes : list (Maybe T)) (acc : list T) (w : W) :
  In None maybes -> reduce reducer maybes (Some acc) w = (Normal None, w).
Proof.
  revert acc. induction maybes as [| curr rest IH]; intros acc Hin; [destruct Hin |].
  simpl. unfold Exec.bind. destruct curr as [| x]; simpl.
  - apply reduce_lost.
  - apply IH. destruct Hin as [Hx | Hin]; [discriminate Hx | exact Hin].
Qed.

Lemma all_Some_or_None (maybes : list (Maybe T)) :
  (exists values, maybes = List.map (@Some T) values) \/ In None maybes.
Proof.
  induction maybes as [| curr rest [[values ->] | Hin]].
  - left. exists []. reflexivity.
  - destruct curr as [| x].
    + right. left. reflexivity.
    + left. exists (x :: values). reflexivity.
  - right. right. exact Hin.
Qed.

Lemma map_Some_no_None (values : list T) : ~ In None (List.map (@Some T) values).
Proof.
  induction values as [| x rest IH]; simpl; [tauto |].
  intros [H | H]; [discriminate H | exact (IH H)].
Qed.

Lemma map_Some_inj (xs ys : list T) :
  List.map (@Some T) xs = List.map (@Some T) ys -> xs = ys.
Proof.
  revert ys. induction xs as [| x xs IH]; intros [| y ys] H; simpl in H;
    try discriminate H; [reflexivity |].
  injection H as -> H. f_equal. apply IH, H.
Qed.

Lemma combine_returns (maybes : list (Maybe T)) (w : W) :
  Exec.returns (@combine W T maybes) w = true.
Proof.
  unfold Exec.returns, Exec.completion, combine.
  destruct (all_Some_or_None maybes) as [[values ->] | Hin].
  - rewrite reduce_all_Some. reflexivity.
  - rewrite reduce_some_None by exact Hin. reflexivity.
Qed.

End Combine.

(* ------------------------------------------------------------------ *)
(** ** The claims on extraction, transformation and traversal *)

(** C1. [get (Some v)] returns [v]; [get None] throws, and what it throws is
    the one error the library makes, [Error("Expected 'Some' but was given
    'None'")], the failure that the specification calls EmptyValueError;
    [get] throws on no other input.  No other exported function
    throws: [Some], [None], [ofVal], [ofNullable], [ofUndefinable],
    [toNullable], [isSome], [isNone] and [withDefault] take no callback and
    are functions into plain values, [combine] returns from every array and
    world, and [map], [map2], [map3], [bind], [bind2] and [iter] return
    whenever the callback they are given is one that returns. *)
Theorem get_single_failure :
  (forall (T : Type) (v : T), get (Some v) = Normal v) /\
  (forall T : Type,
     get (@None T) = Throw (Js.Error "Expected 'Some' but was given 'None'")) /\
  (forall (T : Type) (m : Maybe T) (e : Js.value),
     get m = Throw e <->
     m = None /\ e = Js.Error "Expected 'Some' but was given 'None'") /\
  (forall (W IN OUT : Type) (mapper : Fn1 W IN OUT) maybe w,
     total1 mapper -> Exec.returns (map mapper maybe) w = true) /\
  (forall (W IN1 IN2 OUT : Type) (mapper : Fn2 W IN1 IN2 OUT) maybe1 maybe2 w,
     total2 mapper -> Exec.returns (map2 mapper maybe1 maybe2) w = true) /\
  (forall (W IN1 IN2 IN3 OUT : Type) (mapper : Fn3 W IN1 IN2 IN3 OUT)
          maybe1 maybe2 maybe3 w,
     total3 mapper -> Exec.returns (map3 mapper maybe1 maybe2 maybe3) w = true) /\
  (forall (W IN OUT : Type) (binder : Fn1 W IN (Maybe OUT)) maybe w,
     total1 binder -> Exec.returns (bind binder maybe) w = true) /\
  (forall (W IN1 IN2 OUT : Type) (binder : Fn2 W IN1 IN2 (Maybe OUT)) maybe1 maybe2 w,
     total2 binder -> Exec.returns (bind2 binder maybe1 maybe2) w = true) /\
  (forall (W T R : Type) (action : Fn1 W T R) maybe w,
     total1 action -> Exec.returns (iter action maybe) w = true) /\
  (forall (W T : Type) (maybes : list (Maybe T)) (w : W),
     Exec.returns (combine maybes) w = true).
Proof.
  split; [reflexivity |]. split; [reflexivity |].
  split.
  { intros T m e. split.
    - intros H. pose proof (get_throws_inv m H) as ->.
      simpl in H. injection H as <-. split; reflexivity.
    - intros [-> ->]. reflexivity. }
  split; [intros; now apply map_returns |].
  split; [intros; now apply map2_returns |].
  split; [intros; now apply map3_returns |].
  split; [intros; now apply bind_returns |].
  split; [intros; now apply bind2_returns |].
  split; [intros; now apply iter_returns |].
  intros. apply combine_returns.
Qed.

Lemma get_single_failure_witness :
  Exec.returns (map2 (pure2 Nat.add) (Some 1) (Some 2)) tt = true.
Proof.
  apply (proj1 (proj2 (proj2 (proj2 (proj2 get_single_failure))))).
  intros v1 v2 w. reflexivity.
Defined.

(** C2. [combine] of an array of [Some]s is [Some] of the payloads in the
    order of the array, and only such an array gives a [Some], with those
    payloads; an array with a [None] at any place gives [None]; the empty
    array gives [Some []].  Every array is of one of the two kinds, and the
    world is left as it was. *)
Theorem combine_spec (W T : Type) (w : W) :
  (forall values : list T,
     combine (List.map (@Some T) values) w = (Normal (Some values), w)) /\
  (forall (maybes : list (Maybe T)) (values : list T),
     combine maybes w = (Normal (Some values), w) <->
     maybes = List.map (@Some T) values) /\
  (forall maybes : list (Maybe T),
     In None maybes <-> combine maybes w = (Normal None, w)) /\
  (forall (before after : list (Maybe T)),
     combine (before ++ None :: after) w = (Normal None, w)) /\
  combine (@nil (Maybe T)) w = (Normal (Some []), w).
Proof.
  assert (Hall : forall values : list T,
             combine (List.map (@Some T) values) w = (Normal (Some values), w)).
  { intros values. unfold combine. rewrite reduce_all_Some. reflexivity. }
  assert (Hnone : forall maybes : list (Maybe T),
             In None maybes -> combine maybes w = (Normal None, w)).
  { intros maybes Hin. unfold combine. now apply reduce_some_None. }
  split; [exact Hall |]. split; [| split; [| split]].
  - intros maybes values. split.
    + intros H. destruct (all_Some_or_None maybes) as [[values' ->] | Hin].
      * rewrite Hall in H. injection H as ->. reflexivity.
      * rewrite (Hnone _ Hin) in H. discriminate H.
    + intros ->. apply Hall.
  - intros maybes. split; [apply Hnone |].
    intros H. destruct (all_Some_or_None maybes) as [[values ->] | Hin]; [| exact Hin].
    rewrite Hall in H. discriminate H.
  - intros before after. apply Hnone, in_elt.
  - reflexivity.
Qed.

(** C3. On [None], [map] and [bind] answer [None] and do not call the
    function: the world is untouched whatever the function would do, and the
    log of a spy put around it stays as it was.  On [Some v], [map] runs the
    mapper once on [v] and wraps what it returns, [Some (f v)] for a mapper
    that only computes, and [bind] is the binder's own run on [v], completion
    and world alike. *)
Theorem map_bind_spec (W IN OUT : Type)
  (mapper : Fn1 W IN OUT) (binder : Fn1 W IN (Maybe OUT)) :
  (forall w, map mapper None w = (Normal None, w)) /\
  (forall w, bind binder None w = (Normal None, w)) /\
  (forall log w, map (spy1 mapper) None (log, w) = (Normal None, (log, w))) /\
  (forall log w, bind (spy1 binder) None (log, w) = (Normal None, (log, w))) /\
  (forall v w, map mapper (Some v) w = (out <- mapper v ;; Exec.ret (Some out)) w) /\
  (forall (f : IN -> OUT) v (w : W),
     map (pure1 f) (Some v) w = (Normal (Some (f v)), w)) /\
  (forall v log w,
     Exec.world (map (spy1 mapper) (Some v)) (log, w)
     = (log ++ [v], Exec.world (mapper v) w)) /\
  (forall v w, bind binder (Some v) w = binder v w) /\
  (forall v log w,
     Exec.world (bind (spy1 binder) (Some v)) (log, w)
     = (log ++ [v], Exec.world (binder v) w)).
Proof.
  repeat split.
  - intros v log w. unfold Exec.world, map, spy1, called, Exec.bind; simpl.
    destruct (mapper v w) as [[out | e] w']; reflexivity.
  - intros v log w. unfold Exec.world, bind, spy1, called; simpl.
    destruct (binder v w) as [r w']; reflexivity.
Qed.

(** C5. [bind (x => Some (f x)) m] is [map f m], for every [f] and [m]: the
    same completion and the same world, from every world; for an [f] that
    only computes, both are [Some (f v)] on [Some v] and [None] on [None]. *)
Theorem bind_Some_is_map (W IN OUT : Type) (m : Maybe IN) (w : W) :
  (forall f : Fn1 W IN OUT,
     bind (fun x => out <- f x ;; Exec.ret (Some out)) m w = map f m w) /\
  (forall f : IN -> OUT,
     bind (fun x => Exec.ret (Some (f x))) m w = map (pure1 f) m w).
Proof.
  split; intros f; destruct m; reflexivity.
Qed.

(** C4. [map2], [map3] and [bind2] answer [None] as soon as one of their
    [Maybe] arguments is [None], and then the function is not called: the
    world is untouched, and the log of a spy put around the function stays as
    it was.  When every argument is a [Some], [map2] and [map3] run the
    mapper once on the payloads, in the order of the arguments, and wrap what
    it returns; [bind2] is the binder's own run on the two payloads. *)
Theorem mapN_bind2_spec (W IN1 IN2 IN3 OUT : Type)
  (mapper2 : Fn2 W IN1 IN2 OUT) (mapper3 : Fn3 W IN1 IN2 IN3 OUT)
  (binder2 : Fn2 W IN1 IN2 (Maybe OUT)) :
  (forall m1 m2 w,
     isNone m1 || isNone m2 = true -> map2 mapper2 m1 m2 w = (Normal None, w)) /\
  (forall m1 m2 log w,
     isNone m1 || isNone m2 = true ->
     map2 (spy2 mapper2) m1 m2 (log, w) = (Normal None, (log, w))) /\
  (forall m1 m2 m3 w,
     isNone m1 || isNone m2 || isNone m3 = true ->
     map3 mapper3 m1 m2 m3 w = (Normal None, w)) /\
  (forall m1 m2 m3 log w,
     isNone m1 || isNone m2 || isNone m3 = true ->
     map3 (spy3 mapper3) m1 m2 m3 (log, w) = (Normal None, (log, w))) /\
  (forall m1 m2 w,
     isNone m1 || isNone m2 = true -> bind2 binder2 m1 m2 w = (Normal None, w)) /\
  (forall m1 m2 log w,
     isNone m1 || isNone m2 = true ->
     bind2 (spy2 binder2) m1 m2 (log, w) = (Normal None, (log, w))) /\
  (forall v1 v2 w,
     map2 mapper2 (Some v1) (Some v2) w
     = (out <- mapper2 v1 v2 ;; Exec.ret (Some out)) w) /\
  (forall (f : IN1 -> IN2 -> OUT) v1 v2 (w : W),
     map2 (pure2 f) (Some v1) (Some v2) w = (Normal (Some (f v1 v2)), w)) /\
  (forall v1 v2 log w,
     Exec.world (map2 (spy2 mapper2) (Some v1) (Some v2)) (log, w)
     = (log ++ [(v1, v2)], Exec.world (mapper2 v1 v2) w)) /\
  (forall v1 v2 v3 w,
     map3 mapper3 (Some v1) (Some v2) (Some v3) w
     = (out <- mapper3 v1 v2 v3 ;; Exec.ret (Some out)) w) /\
  (forall (f : IN1 -> IN2 -> IN3 -> OUT) v1 v2 v3 (w : W),
     map3 (pure3 f) (Some v1) (Some v2) (Some v3) w
     = (Normal (Some (f v1 v2 v3)), w)) /\
  (forall v1 v2 v3 log w,
     Exec.world (map3 (spy3 mapper3) (Some v1) (Some v2) (Some v3)) (log, w)
     = (log ++ [(v1, v2, v3)], Exec.world (mapper3 v1 v2 v3) w)) /\
  (forall v1 v2 w, bind2 binder2 (Some v1) (Some v2) w = binder2 v1 v2 w) /\
  (forall v1 v2 log w,
     Exec.world (bind2 (spy2 binder2) (Some v1) (Some v2)) (log, w)
     = (log ++ [(v1, v2)], Exec.world (binder2 v1 v2) w)).
Proof.
  repeat split.
  - intros m1 m2 w H. rewrite map2_eq.
    destruct m1, m2; try discriminate H; reflexivity.
  - intros m1 m2 log w H. rewrite map2_eq.
    destruct m1, m2; try discriminate H; reflexivity.
  - intros m1 m2 m3 w H. rewrite map3_eq.
    destruct m1, m2, m3; try discriminate H; reflexivity.
  - intros m1 m2 m3 log w H. rewrite map3_eq.
    destruct m1, m2, m3; try discriminate H; reflexivity.
  - intros m1 m2 w H. rewrite bind2_eq.
    destruct m1, m2; try discriminate H; reflexivity.
  - intros m1 m2 log w H. rewrite bind2_eq.
    destruct m1, m2; try discriminate H; reflexivity.
  - intros v1 v2 log w. unfold Exec.world. rewrite map2_eq.
    unfold map, spy2, called, Exec.bind; simpl.
    destruct (mapper2 v1 v2 w) as [[out | e] w']; reflexivity.
  - intros v1 v2 v3 log w. unfold Exec.world. rewrite map3_eq.
    unfold spy3, called, Exec.bind; simpl.
    destruct (mapper3 v1 v2 v3 w) as [[out | e] w']; reflexivity.
  - intros v1 v2 log w. unfold Exec.world. rewrite bind2_eq.
    unfold bind, spy2, called; simpl.
    destruct (binder2 v1 v2 w) as [r w']; reflexivity.
Qed.

Lemma mapN_bind2_spec_witness :
  map3 (spy3 (pure3 (fun a b c : nat => a + b + c))) (Some 1) None (Some 3) ([], tt)
  = (Normal None, ([], tt)).
Proof.
  apply (proj1 (proj2 (proj2 (proj2
    (mapN_bind2_spec (pure2 Nat.add) (pure3 (fun a b c : nat => a + b + c))
       (pure2 (fun a b : nat => Some (a + b)))))))).
  reflexivity.
Defined.

(** C8. On [Some v], [iter] calls the action once, on [v]: a spy put around
    the action gets [v] as its one new entry, the world is the one the action
    leaves, and [iter] returns nothing of the action's result (it throws what
    the action throws).  On [None] the action is not called: [iter] returns,
    the world and the spy's log are as they were. *)
Theorem iter_spec (W T R : Type) (action : Fn1 W T R) :
  (forall v log w,
     Exec.world (iter (spy1 action) (Some v)) (log, w)
     = (log ++ [v], Exec.world (action v) w)) /\
  (forall v w,
     Exec.completion (iter action (Some v)) w
     = match Exec.completion (action v) w with
       | Normal _ => Normal tt
       | Throw e => Throw e
       end) /\
  (forall v w, iter action (Some v) w = (_ <- action v ;; Exec.ret tt) w) /\
  (forall w, iter action None w = (Normal tt, w)) /\
  (forall log w, iter (spy1 action) None (log, w) = (Normal tt, (log, w))).
Proof.
  repeat split.
  - intros v log w. unfold Exec.world, iter, spy1, called, Exec.bind; simpl.
    destruct (action v w) as [[r | e] w']; reflexivity.
  - intros v w. unfold Exec.completion, iter, Exec.bind.
    destruct (action v w) as [[r | e] w']; reflexivity.
Qed.

(* ------------------------------------------------------------------ *)
(** ** Inspection and defaults *)

Lemma isNone_negb_isSome {T : Type} (m : Maybe T) : isNone m = negb (isSome m).
Proof. destruct m; reflexivity. Qed.

Lemma isSome_true_iff {T : Type} (m : Maybe T) :
  isSome m = true <-> exists v, m = Some v.
Proof.
  destruct m as [| v]; simpl; split; try discriminate.
  - intros [v H]. discriminate H.
  - intros _. exists v. reflexivity.
  - reflexivity.
Qed.

Lemma withDefault_Some {T : Type} (d v : T) : withDefault d (Some v) = v.
Proof. reflexivity. Qed.

Lemma withDefault_None {T : Type} (d : T) : withDefault d None = d.
Proof. reflexivity. Qed.

Lemma get_withDefault {T : Type} (d : T) (m : Maybe T) :
  isSome m = true -> get m = Normal (withDefault d m).
Proof. destruct m; [discriminate | reflexivity]. Qed.

(* ------------------------------------------------------------------ *)
(** ** Cases of [spec/maybe.spec.ts] *)

Example ofVal_truthy_string :
  ofVal (Js.String "I'm truthy") (Js.Passed true) = Some (Js.String "I'm truthy").
Proof. reflexivity. Qed.

Example ofUndefinable_null : ofUndefinable Js.Null = None.
Proof. reflexivity. Qed.

Example ofNullable_foo : ofNullable (Js.String "foo") = Some (Js.String "foo").
Proof. reflexivity. Qed.

Example toNullable_None : toNullable None = Js.Null.
Proof. reflexivity. Qed.

Example map2_foo_bar :
  map2 (pure2 (fun v1 v2 => v1 ++ "-" ++ v2)%string) (Some "foo") (Some "bar") tt
  = (Normal (Some "foo-bar"), tt).
Proof. reflexivity. Qed.

Example map3_second_None :
  map3 (pure3 (fun _ _ _ : string => "abc")) (Some "foo") None (Some "bar") tt
  = (Normal None, tt).
Proof. reflexivity. Qed.

Example map3_foo_bar_baz :
  map3 (pure3 (fun v1 v2 v3 => v1 ++ v2 ++ v3)%string)
       (Some "foo") (Some "bar") (Some "baz") tt
  = (Normal (Some "foobarbaz"), tt).
Proof. reflexivity. Qed.

Example bind_binder_None :
  bind (fun v : string => Exec.ret (if Nat.ltb 0 (String.length v) then Some v else None))
       (Some "") tt
  = (Normal None, tt).
Proof. reflexivity. Qed.

Example bind2_binder_None :
  bind2 (pure2 (fun _ _ : string => @None string)) (Some "foo") (Some "bar") tt
  = (Normal None, tt).
Proof. reflexivity. Qed.

Example combine_middle_None :
  combine [Some "foo"; None; Some "bar"] tt = (Normal None, tt).
Proof. reflexivity. Qed.

Example combine_foo_bar_baz :
  combine [Some "foo"; Some "bar"; Some "baz"] tt
  = (Normal (Some ["foo"; "bar"; "baz"]), tt).
Proof. reflexivity. Qed.

Example iter_spy_foo :
  iter (spy1 (pure1 (fun _ : string => tt))) (Some "foo") ([], tt)
  = (Normal tt, (["foo"], tt)).
Proof. reflexivity. Qed.

Example iter_spy_None :
  iter (spy1 (pure1 (fun _ : string => tt))) None ([], tt) = (Normal tt, ([], tt)).
Proof. reflexivity. Qed.

(* ------------------------------------------------------------------ *)
(** ** Laws of [map] and [bind] *)

(** Running one callback after another, each from the world the one before
    it left; used to split the cases of the laws below. *)
Ltac run c :=
  let r := fresh "r" in
  let e := fresh "e" in
  let w' := fresh "w'" in
  destruct c as [[r | e] w']; simpl; try reflexivity.

(** X1. Mapping the identity gives the [Maybe] back, and mapping [f] and then
    [g] is mapping "[f] then [g]": the same completion and the same world,
    also when [f] or [g] changes the world or throws. *)
Theorem map_functor (W : Type) :
  (forall (T : Type) (m : Maybe T) (w : W),
     map (pure1 (fun x => x)) m w = (Normal m, w)) /\
  (forall (IN MID OUT : Type) (f : Fn1 W IN MID) (g : Fn1 W MID OUT) m w,
     (mid <- map f m ;; map g mid) w = map (fun x => y <- f x ;; g y) m w).
Proof.
  split.
  - intros T [| v] w; reflexivity.
  - intros IN MID OUT f g [| v] w; [reflexivity |].
    unfold map, Exec.bind. run (f v w).
Qed.

(** X2. [bind] with the binder [x => Some(x)] gives the [Maybe] back, and
    binding [f] and then [g] is binding "[f], then [bind g] on its result":
    chains of binders can be regrouped, also when they change the world or
    throw. *)
Theorem bind_monad (W : Type) :
  (forall (T : Type) (m : Maybe T) (w : W),
     bind (pure1 (@Some T)) m w = (Normal m, w)) /\
  (forall (IN MID OUT : Type) (f : Fn1 W IN (Maybe MID)) (g : Fn1 W MID (Maybe OUT)) m w,
     (mid <- bind f m ;; bind g mid) w = bind (fun x => mid <- f x ;; bind g mid) m w).
Proof.
  split.
  - intros T [| v] w; reflexivity.
  - intros IN MID OUT f g [| v] w; reflexivity.
Qed.

(** X3. The record that [map2], [bind2] and [map3] build between their steps
    cannot be seen: each is the plain nesting of [bind] and [map] over its
    arguments, first to last. *)
Theorem mapN_nested (W IN1 IN2 IN3 OUT : Type) (m1 : Maybe IN1) (m2 : Maybe IN2)
  (m3 : Maybe IN3) (w : W) :
  (forall f : Fn2 W IN1 IN2 OUT,
     map2 f m1 m2 w = bind (fun v1 => map (fun v2 => f v1 v2) m2) m1 w) /\
  (forall f : Fn2 W IN1 IN2 (Maybe OUT),
     bind2 f m1 m2 w = bind (fun v1 => bind (fun v2 => f v1 v2) m2) m1 w) /\
  (forall f : Fn3 W IN1 IN2 IN3 OUT,
     map3 f m1 m2 m3 w
     = bind (fun v1 => bind (fun v2 => map (fun v3 => f v1 v2 v3) m3) m2) m1 w).
Proof.
  repeat split; intros f.
  - rewrite map2_eq. destruct m1, m2; reflexivity.
  - rewrite bind2_eq. destruct m1, m2; reflexivity.
  - rewrite map3_eq. destruct m1, m2, m3; reflexivity.
Qed.

(** X4. [bind2] with the binder [(a, b) => Some(f(a, b))] is [map2 f], as
    [bind] with [x => Some(f(x))] is [map f]. *)
Theorem bind2_Some_is_map2 (W IN1 IN2 OUT : Type) (f : Fn2 W IN1 IN2 OUT)
  (m1 : Maybe IN1) (m2 : Maybe IN2) (w : W) :
  bind2 (fun v1 v2 => out <- f v1 v2 ;; Exec.ret (Some out)) m1 m2 w = map2 f m1 m2 w.
Proof.
  rewrite bind2_eq, map2_eq. destruct m1, m2; reflexivity.
Qed.

(** X5. The order of the two [Maybe] arguments of [map2] and [bind2] matters
    to the function only: swapping them and the function's parameters gives the
    same completion and the same world. *)
Theorem map2_bind2_swap (W IN1 IN2 OUT : Type) (m1 : Maybe IN1) (m2 : Maybe IN2) (w : W) :
  (forall f : Fn2 W IN1 IN2 OUT,
     map2 f m1 m2 w = map2 (fun v2 v1 => f v1 v2) m2 m1 w) /\
  (forall f : Fn2 W IN1 IN2 (Maybe OUT),
     bind2 f m1 m2 w = bind2 (fun v2 v1 => f v1 v2) m2 m1 w).
Proof.
  split; intros f.
  - rewrite !map2_eq. destruct m1, m2; reflexivity.
  - rewrite !bind2_eq. destruct m1, m2; reflexivity.
Qed.

(** X6. The library neither catches nor wraps: [map], [bind], [map2],
    [bind2], [map3] and [iter] throw [e] exactly when every [Maybe] argument
    is a [Some] and the callback throws [e] on the payloads. *)
Theorem throws_are_the_callbacks (W : Type) (w : W) (e : Js.value) :
  (forall (IN OUT : Type) (f : Fn1 W IN OUT) m,
     Exec.completion (map f m) w = Throw e <->
     exists v, m = Some v /\ Exec.completion (f v) w = Throw e) /\
  (forall (IN OUT : Type) (f : Fn1 W IN (Maybe OUT)) m,
     Exec.completion (bind f m) w = Throw e <->
     exists v, m = Some v /\ Exec.completion (f v) w = Throw e) /\
  (forall (IN1 IN2 OUT : Type) (f : Fn2 W IN1 IN2 OUT) m1 m2,
     Exec.completion (map2 f m1 m2) w = Throw e <->
     exists v1 v2, m1 = Some v1 /\ m2 = Some v2 /\
                   Exec.completion (f v1 v2) w = Throw e) /\
  (forall (IN1 IN2 OUT : Type) (f : Fn2 W IN1 IN2 (Maybe OUT)) m1 m2,
     Exec.completion (bind2 f m1 m2) w = Throw e <->
     exists v1 v2, m1 = Some v1 /\ m2 = Some v2 /\
                   Exec.completion (f v1 v2) w = Throw e) /\
  (forall (IN1 IN2 IN3 OUT : Type) (f : Fn3 W IN1 IN2 IN3 OUT) m1 m2 m3,
     Exec.completion (map3 f m1 m2 m3) w = Throw e <->
     exists v1 v2 v3, m1 = Some v1 /\ m2 = Some v2 /\ m3 = Some v3 /\
                      Exec.completion (f v1 v2 v3) w = Throw e) /\
  (forall (T R : Type) (action : Fn1 W T R) m,
     Exec.completion (iter action m) w = Throw e <->
     exists v, m = Some v /\ Exec.completion (action v) w = Throw e).
Proof.
  unfold Exec.completion.
  split; [| split; [| split; [| split; [| split]]]].
  - intros IN OUT f [| v]; simpl; split.
    + discriminate.
    + intros (v & H & _). discriminate H.
    + intros H. exists v. split; [reflexivity |].
      unfold Exec.bind in H. destruct (f v w) as [[r | e'] w']; simpl in *; congruence.
    + intros (v' & [= <-] & H). unfold Exec.bind.
      destruct (f v w) as [[r | e'] w']; simpl in *; congruence.
  - intros IN OUT f [| v]; simpl; split.
    + discriminate.
    + intros (v & H & _). discriminate H.
    + intros H. exists v. split; [reflexivity | exact H].
    + intros (v' & [= <-] & H). exact H.
  - intros IN1 IN2 OUT f m1 m2. rewrite map2_eq. split.
    + destruct m1 as [| v1], m2 as [| v2]; simpl; try discriminate.
      intros H. exists v1, v2. repeat split.
      unfold Exec.bind in H.
      destruct (f v1 v2 w) as [[r | e'] w']; simpl in *; congruence.
    + intros (v1 & v2 & -> & -> & H). simpl. unfold Exec.bind.
      destruct (f v1 v2 w) as [[r | e'] w']; simpl in *; congruence.
  - intros IN1 IN2 OUT f m1 m2. rewrite bind2_eq. split.
    + destruct m1 as [| v1], m2 as [| v2]; simpl; try discriminate.
      intros H. exists v1, v2. repeat split. exact H.
    + intros (v1 & v2 & -> & -> & H). exact H.
  - intros IN1 IN2 IN3 OUT f m1 m2 m3. rewrite map3_eq. split.
    + destruct m1 as [| v1], m2 as [| v2], m3 as [| v3]; simpl; try discriminate.
      intros H. exists v1, v2, v3. repeat split.
      unfold Exec.bind in H.
      destruct (f v1 v2 v3 w) as [[r | e'] w']; simpl in *; congruence.
    + intros (v1 & v2 & v3 & -> & -> & -> & H). unfold Exec.bind.
      destruct (f v1 v2 v3 w) as [[r | e'] w']; simpl in *; congruence.
  - intros T R action [| v]; simpl; split.
    + discriminate.
    + intros (v & H & _). discriminate H.
    + intros H. exists v. split; [reflexivity |].
      unfold Exec.bind in H.
      destruct (action v w) as [[r | e'] w']; simpl in *; congruence.
    + intros (v' & [= <-] & H). unfold Exec.bind.
      destruct (action v w) as [[r | e'] w']; simpl in *; congruence.
Qed.

(** X7. [iter] is [map] with the result thrown away: the action runs under
    the same condition, leaves the same world and throws the same. *)
Theorem iter_is_map_discarded (W T R : Type) (action : Fn1 W T R) (m : Maybe T) (w : W) :
  iter action m w = (_ <- map action m ;; Exec.ret tt) w.
Proof.
  destruct m as [| v]; [reflexivity |].
  unfold iter, map, Exec.bind. run (action v w).
Qed.

(* ------------------------------------------------------------------ *)
(** ** How [combine] splits *)

Section CombineLaws.

Variables W T : Type.

Lemma combine_of_Somes (values : list T) (w : W) :
  combine (List.map (@Some T) values) w = (Normal (Some values), w).
Proof. unfold combine. rewrite reduce_all_Some. reflexivity. Qed.

Lemma combine_with_None (maybes : list (Maybe T)) (w : W) :
  In None maybes -> combine maybes w = (Normal None, w).
Proof. intros Hin. unfold combine. now apply reduce_some_None. Qed.

Lemma combine_Some_inv (maybes : list (Maybe T)) (values : list T) (w w' : W) :
  combine maybes w = (Normal (Some values), w') ->
  maybes = List.map (@Some T) values /\ w' = w.
Proof.
  intros H. destruct (all_Some_or_None maybes) as [[values' ->] | Hin].
  - rewrite combine_of_Somes in H. injection H as -> ->. split; reflexivity.
  - rewrite (combine_with_None _ w Hin) in H. discriminate H.
Qed.

End CombineLaws.

(** X8. [combine] of a concatenation is the two [combine]s put together with
    [map2] and array concatenation, and [combine] of an array is its first
    element put in front of the [combine] of the rest with [map2]. *)
Theorem combine_splits (W T : Type) (w : W) :
  (forall l1 l2 : list (Maybe T),
     combine (l1 ++ l2) w
     = (r1 <- combine l1 ;; r2 <- combine l2 ;; map2 (pure2 (@app T)) r1 r2) w) /\
  (forall (m : Maybe T) (l : list (Maybe T)),
     combine (m :: l) w = (r <- combine l ;; map2 (pure2 (@cons T)) m r) w).
Proof.
  split.
  - intros l1 l2. unfold Exec.bind at 1.
    destruct (all_Some_or_None l1) as [[v1 ->] | H1].
    + rewrite (combine_of_Somes v1 w). unfold Exec.bind.
      destruct (all_Some_or_None l2) as [[v2 ->] | H2].
      * rewrite (combine_of_Somes v2 w), <- List.map_app.
        rewrite combine_of_Somes. reflexivity.
      * rewrite (combine_with_None l2 w H2).
        rewrite combine_with_None by (apply in_or_app; right; exact H2).
        reflexivity.
    + rewrite (combine_with_None l1 w H1).
      rewrite combine_with_None by (apply in_or_app; left; exact H1).
      unfold Exec.bind. destruct (combine l2 w) as [[[| v2] | e] w'] eqn:E.
      * destruct (all_Some_or_None l2) as [[v2 ->] | H2].
        -- rewrite combine_of_Somes in E. discriminate E.
        -- rewrite (combine_with_None l2 w H2) in E. injection E as <-. reflexivity.
      * apply combine_Some_inv in E. destruct E as [_ ->]. reflexivity.
      * pose proof (combine_returns l2 w) as R.
        unfold Exec.returns, Exec.completion in R. rewrite E in R. discriminate R.
  - intros m l. unfold Exec.bind.
    destruct (all_Some_or_None l) as [[values ->] | Hin].
    + rewrite (combine_of_Somes values w). destruct m as [| x].
      * apply combine_with_None. left. reflexivity.
      * apply (combine_of_Somes (x :: values) w).
    + rewrite (combine_with_None l w Hin).
      rewrite combine_with_None by (right; exact Hin).
      destruct m; reflexivity.
Qed.



(** X10. [combine] of the reversed array is the reversed [combine]: [None]
    when the array has a [None], else [Some] of the payloads in reverse. *)
Theorem combine_rev (W T : Type) (maybes : list (Maybe T)) (w : W) :
  combine (List.rev maybes) w = (r <- combine maybes ;; map (pure1 (@List.rev T)) r) w.
Proof.
  unfold Exec.bind.
  destruct (all_Some_or_None maybes) as [[values ->] | Hin].
  - rewrite (combine_of_Somes values w), <- List.map_rev.
    apply combine_of_Somes.
  - rewrite (combine_with_None maybes w Hin).
    apply combine_with_None. apply -> in_rev. exact Hin.
Qed.

(* ------------------------------------------------------------------ *)
(** ** The two checks of [ofVal], and lowering after lifting *)

Lemma ofVal_cases (v : Js.value) (u : Js.param bool) :
  ofVal v u = None \/ ofVal v u = Some v.
Proof.
  unfold ofVal. destruct (if Js.orDefault false u then _ else _); auto.
Qed.

(** X11. The truthy check is the stricter one: what it keeps, the default
    check keeps too; and the values the default check keeps while the truthy
    check drops are [false], [+0], [-0], [NaN], [0n] and the empty string,
    and no other. *)
Theorem ofVal_truthy_stricter (v : Js.value) :
  (ofVal v (Js.Passed true) = Some v -> ofVal v Js.Omitted = Some v) /\
  (ofVal v Js.Omitted = Some v /\ ofVal v (Js.Passed true) = None <->
   v = Js.Boolean false \/ (exists s, v = Js.Number (S754_zero s)) \/
   v = Js.Number S754_nan \/ v = Js.BigInt 0 \/ v = Js.String "").
Proof.
  split.
  - destruct v; simpl; try discriminate; reflexivity.
  - split.
    + intros [H0 H]. rewrite ofVal_truthy_eq in H.
      destruct v as [| | [|] | [s | s | | s m e] | z | s | id | addr | msg];
        simpl in H; try discriminate H; try discriminate H0.
      * left. reflexivity.
      * right; left. exists s. reflexivity.
      * right; right; left. reflexivity.
      * right; right; right; left.
        destruct (Z.eqb_spec z 0) as [-> | _]; [reflexivity | discriminate H].
      * right; right; right; right.
        destruct (String.eqb_spec s "") as [-> | _]; [reflexivity | discriminate H].
    + intros [-> | [[s ->] | [-> | [-> | ->]]]]; split; reflexivity.
Qed.

Lemma ofVal_truthy_stricter_witness :
  ofVal (Js.String "x") Js.Omitted = Some (Js.String "x").
Proof.
  apply (proj1 (ofVal_truthy_stricter (Js.String "x"))). reflexivity.
Defined.

(** X12. Lowering a lifted value gives the value back or [null]: after
    [ofNullable], [ofUndefinable] and [ofVal] without the truthy check,
    [toNullable] returns the value itself, but for [undefined], which comes
    back as [null]; with the truthy check it returns the value when it is
    truthy and [null] when it is falsy. *)
Theorem toNullable_lifted (v : Js.value) :
  toNullable (ofNullable v) = match v with Js.Undefined => Js.Null | _ => v end /\
  toNullable (ofUndefinable v) = match v with Js.Undefined => Js.Null | _ => v end /\
  toNullable (ofVal v Js.Omitted) = match v with Js.Undefined => Js.Null | _ => v end /\
  toNullable (ofVal v (Js.Passed true)) = (if Js.ToBoolean v then v else Js.Null).
Proof.
  repeat split; try (destruct v; reflexivity).
  rewrite ofVal_truthy_eq. destruct (Js.ToBoolean v); reflexivity.
Qed.

(** X13. Lifting is stable under a trip through the nullable form: lifting,
    lowering with [toNullable] and lifting again with the same function gives
    what the first lifting gave, for [ofVal] with either check, [ofNullable]
    and [ofUndefinable]. *)
Theorem lift_lower_lift (v : Js.value) :
  (forall u, ofVal (toNullable (ofVal v u)) u = ofVal v u) /\
  ofNullable (toNullable (ofNullable v)) = ofNullable v /\
  ofUndefinable (toNullable (ofUndefinable v)) = ofUndefinable v.
Proof.
  split; [| split].
  - intros u. destruct (ofVal_cases v u) as [E | E]; rewrite E; simpl.
    + destruct u as [| [|]]; reflexivity.
    + exact E.
  - destruct v; reflexivity.
  - destruct v; reflexivity.
Qed.

(* ------------------------------------------------------------------ *)
(** ** Inspection, [get] and [withDefault] together *)

(** X14. [isNone] is the negation of [isSome] on every [Maybe], and [isSome]
    holds exactly of the values built by [Some], whatever the payload. *)
Theorem isSome_isNone (T : Type) (m : Maybe T) :
  isNone m = negb (isSome m) /\
  (isSome m = true <-> exists v, m = Some v) /\
  (isNone m = true <-> m = None).
Proof.
  split; [apply isNone_negb_isSome |]. split; [apply isSome_true_iff |].
  destruct m; simpl; split; try reflexivity; discriminate.
Qed.

(** X15. [isSome] is the guard of [get]: [get] returns exactly on the values
    [isSome] accepts and throws exactly on those [isNone] accepts, so after
    [filter(isSome)] every [get] returns, and it returns what [withDefault]
    returns with any default. *)
Theorem get_guarded (T : Type) :
  (forall m : Maybe T, isSome m = true <-> exists v, get m = Normal v) /\
  (forall m : Maybe T, isNone m = true <-> exists e, get m = Throw e) /\
  (forall (def : T) (maybes : list (Maybe T)),
     Forall (fun m => get m = Normal (withDefault def m)) (List.filter isSome maybes)).
Proof.
  split; [| split].
  - intros [| v]; simpl; split; try discriminate.
    + intros [v H]. discriminate H.
    + intros _. exists v. reflexivity.
    + reflexivity.
  - intros [| v]; simpl; split; try discriminate.
    + intros _. eexists. reflexivity.
    + reflexivity.
    + intros [e H]. discriminate H.
  - intros def maybes. apply Forall_forall. intros m Hin.
    apply filter_In in Hin. destruct Hin as [_ Hs].
    apply get_withDefault. exact Hs.
Qed.

(** X16. [withDefault] agrees with the other two extractions: it returns
    what [get] returns when [get] returns, the default when [get] throws, and
    [toNullable] is [withDefault] with [null] as the default. *)
Theorem withDefault_extractions :
  (forall (T : Type) (def : T) (m : Maybe T) (v : T),
     get m = Normal v -> withDefault def m = v) /\
  (forall (T : Type) (def : T) (m : Maybe T) (e : Js.value),
     get m = Throw e -> withDefault def m = def) /\
  (forall m : Maybe Js.value, toNullable m = withDefault Js.Null m).
Proof.
  split; [| split].
  - intros T def [| x] v H; simpl in H; [discriminate H |].
    injection H as ->. reflexivity.
  - intros T def m e H. rewrite (get_throws_inv m H). reflexivity.
  - intros [| v]; reflexivity.
Qed.

Lemma withDefault_extractions_witness : withDefault 0 (Some 7) = 7.
Proof.
  apply (proj1 withDefault_extractions nat 0 (Some 7) 7). reflexivity.
Defined.

(** X17. [withDefault] goes through [map]: mapping [f] and then taking the
    default [f(def)] is taking the default [def] and then applying [f]. *)
Theorem withDefault_map (W IN OUT : Type) (f : IN -> OUT) (def : IN) (m : Maybe IN)
  (w : W) :
  (r <- map (pure1 f) m ;; Exec.ret (withDefault (f def) r)) w
  = (Normal (f (withDefault def m)), w).
Proof. destruct m; reflexivity. Qed.

(** X18. The kind of a result, when the call returns: [map] keeps the kind
    of its argument, [map2] and [map3] answer a [Some] exactly when all their
    arguments are [Some]s, [bind] and [bind2] answer a [Some] only then, and
    [combine] answers a [Some] exactly when every element passes [isSome]. *)
Theorem kind_of_results (W : Type) (w w' : W) :
  (forall (IN OUT : Type) (f : Fn1 W IN OUT) m r,
     map f m w = (Normal r, w') -> isSome r = isSome m) /\
  (forall (IN1 IN2 OUT : Type) (f : Fn2 W IN1 IN2 OUT) m1 m2 r,
     map2 f m1 m2 w = (Normal r, w') -> isSome r = isSome m1 && isSome m2) /\
  (forall (IN1 IN2 IN3 OUT : Type) (f : Fn3 W IN1 IN2 IN3 OUT) m1 m2 m3 r,
     map3 f m1 m2 m3 w = (Normal r, w') ->
     isSome r = isSome m1 && isSome m2 && isSome m3) /\
  (forall (IN OUT : Type) (f : Fn1 W IN (Maybe OUT)) m r,
     bind f m w = (Normal r, w') -> isSome r = true -> isSome m = true) /\
  (forall (IN1 IN2 OUT : Type) (f : Fn2 W IN1 IN2 (Maybe OUT)) m1 m2 r,
     bind2 f m1 m2 w = (Normal r, w') ->
     isSome r = true -> isSome m1 && isSome m2 = true) /\
  (forall (T : Type) (maybes : list (Maybe T)) r,
     combine maybes w = (Normal r, w') -> isSome r = List.forallb isSome maybes).
Proof.
  split; [| split; [| split; [| split; [| split]]]].
  - intros IN OUT f [| v] r H; simpl in H.
    + injection H as <- _. reflexivity.
    + unfold Exec.bind in H. destruct (f v w) as [[out | e] w1]; [| discriminate H].
      injection H as <- _. reflexivity.
  - intros IN1 IN2 OUT f m1 m2 r H. rewrite map2_eq in H.
    destruct m1 as [| v1], m2 as [| v2]; simpl in H;
      try (injection H as <- _; reflexivity).
    unfold Exec.bind in H. destruct (f v1 v2 w) as [[out | e] w1]; [| discriminate H].
    injection H as <- _. reflexivity.
  - intros IN1 IN2 IN3 OUT f m1 m2 m3 r H. rewrite map3_eq in H.
    destruct m1 as [| v1], m2 as [| v2], m3 as [| v3]; simpl in H;
      try (injection H as <- _; reflexivity).
    unfold Exec.bind in H. destruct (f v1 v2 v3 w) as [[out | e] w1]; [| discriminate H].
    injection H as <- _. reflexivity.
  - intros IN OUT f [| v] r H Hr; simpl in H; [| reflexivity].
    injection H as <- _. discriminate Hr.
  - intros IN1 IN2 OUT f m1 m2 r H Hr. rewrite bind2_eq in H.
    destruct m1 as [| v1], m2 as [| v2]; simpl in H;
      try (injection H as <- _; discriminate Hr).
    reflexivity.
  - intros T maybes r H.
    destruct (all_Some_or_None maybes) as [[values ->] | Hin].
    + rewrite combine_of_Somes in H. injection H as <- _.
      symmetry. apply forallb_forall. intros m Hm.
      apply in_map_iff in Hm. destruct Hm as (x & <- & _). reflexivity.
    + rewrite (combine_with_None maybes w Hin) in H. injection H as <- _.
      simpl. symmetry. apply not_true_is_false. intros Hall.
      rewrite forallb_forall in Hall. specialize (Hall None Hin). discriminate Hall.
Qed.

Lemma kind_of_results_witness :
  isSome (Some 3) = isSome (Some 1) && isSome (Some 2).
Proof.
  apply (proj1 (proj2 (@kind_of_results unit tt tt))
           nat nat nat (pure2 Nat.add) (Some 1) (Some 2) (Some 3)).
  reflexivity.
Defined.
